(** * Gnome Settings plugin for Albert: shallow embedding of
      [src/gnome_settings/__init__.py] and its specification.

    Strings are modelled as Stdlib [string] (ASCII): every literal of the
    catalog is ASCII, and [str.strip], [str.lower] and the regex classes
    [\s] and [\w] are modelled on the ASCII range, where they agree with
    Python's Unicode behaviour. *)

From Stdlib Require Import String Ascii List Bool ZArith Lia.
Import ListNotations.
Open Scope string_scope.

(** ** Character classes, as Python sees them on ASCII *)

(** [str.isspace] / regex [\s]: \t \n \v \f \r, \x1c-\x1f and space. *)
Definition is_space (c : ascii) : bool :=
  let n := nat_of_ascii c in
  ((9 <=? n) && (n <=? 13))%nat || ((28 <=? n) && (n <=? 32))%nat.

(** regex [\w]: letters, digits and underscore. *)
Definition is_word (c : ascii) : bool :=
  let n := nat_of_ascii c in
  ((48 <=? n) && (n <=? 57))%nat      (* 0-9 *)
  || ((65 <=? n) && (n <=? 90))%nat   (* A-Z *)
  || ((97 <=? n) && (n <=? 122))%nat  (* a-z *)
  || (n =? 95)%nat.                   (* _ *)

(** [str.lower] on one character. *)
Definition lower_char (c : ascii) : ascii :=
  let n := nat_of_ascii c in
  if ((65 <=? n) && (n <=? 90))%nat then ascii_of_nat (n + 32) else c.

Fixpoint lower (s : string) : string :=
  match s with
  | EmptyString => EmptyString
  | String c r => String (lower_char c) (lower r)
  end.

(** [str.strip()] with no argument: drop leading and trailing whitespace. *)
Fixpoint lstrip (s : string) : string :=
  match s with
  | EmptyString => EmptyString
  | String c r => if is_space c then lstrip r else s
  end.

Fixpoint rstrip (s : string) : string :=
  match s with
  | EmptyString => EmptyString
  | String c r =>
      let r' := rstrip r in
      if (r' =? "") && is_space c then EmptyString else String c r'
  end.

Definition strip (s : string) : string := rstrip (lstrip s).

(** [query.string.strip().lower()], done by both query handlers. *)
Definition normalize (s : string) : string := lower (strip s).

(** Python's [needle in hay] on strings (substring test). *)
Fixpoint contains (needle hay : string) : bool :=
  prefix needle hay ||
  match hay with
  | EmptyString => false
  | String _ r => contains needle r
  end.

(** ** The compiled pattern [r"^\s*(?P<query>\w+)\s*$"]

    [re.match] anchors at the start; [^] is redundant there.  The three
    states follow the three parts of the pattern.  [$] also matches just
    before a final newline, but a newline is itself [\s], so the trailing
    [\s*] already absorbs that case. *)
Inductive re_state := Lead | InWord | Trail.

Fixpoint word_match_from (st : re_state) (s : string) : bool :=
  match s with
  | EmptyString =>
      match st with Lead => false | InWord | Trail => true end
  | String c r =>
      match st with
      | Lead =>
          if is_space c then word_match_from Lead r
          else if is_word c then word_match_from InWord r else false
      | InWord =>
          if is_word c then word_match_from InWord r
          else if is_space c then word_match_from Trail r else false
      | Trail => if is_space c then word_match_from Trail r else false
      end
  end.

(** [self.word_match.match(s)] is truthy. *)
Definition word_match (s : string) : bool := word_match_from Lead s.

(** ** Data model *)

Record PageInfo := mkPageInfo {
  title : string;
  description : string;
  command : list string
}.

(** [self.settings_pages]: a dict literal, iterated in insertion order. *)
Definition SETTINGS_PAGES : list (string * PageInfo) := [
  ("wifi", mkPageInfo "Wi-Fi" "Configure wireless networks"
             ["gnome-control-center"; "wifi"]);
  ("network", mkPageInfo "Network" "Configure network connections"
             ["gnome-control-center"; "network"]);
  ("bluetooth", mkPageInfo "Bluetooth" "Configure Bluetooth devices"
             ["gnome-control-center"; "bluetooth"]);
  ("display", mkPageInfo "Displays" "Configure monitors and displays"
             ["gnome-control-center"; "display"]);
  ("sound", mkPageInfo "Sound" "Configure audio devices and volume"
             ["gnome-control-center"; "sound"]);
  ("power", mkPageInfo "Power" "Configure power saving options"
             ["gnome-control-center"; "power"]);
  ("multitasking", mkPageInfo "Multitasking" "Multitasking gestures and prefrences"
             ["gnome-control-center"; "multitasking"]);
  ("appearance", mkPageInfo "Appearance" "Configure system theme and appearance"
             ["gnome-control-center"; "appearance"]);
  ("applications", mkPageInfo "Applications" "Manage installed applications"
             ["gnome-control-center"; "applications"]);
  ("notifications", mkPageInfo "Notifications" "Configure system notifications"
             ["gnome-control-center"; "notifications"]);
  ("online-accounts", mkPageInfo "Online Accounts" "Configure online service accounts"
             ["gnome-control-center"; "online-accounts"]);
  ("sharing", mkPageInfo "Sharing" "Configure file and media sharing"
             ["gnome-control-center"; "sharing"]);
  ("mouse", mkPageInfo "Mouse & Touchpad" "Configure pointing devices"
             ["gnome-control-center"; "mouse"]);
  ("keyboard", mkPageInfo "Keyboard" "Configure keyboard shortcuts and behavior"
             ["gnome-control-center"; "keyboard"]);
  ("color", mkPageInfo "Color" "Adjust the Display Color Settings"
             ["gnome-control-center"; "color"]);
  ("printers", mkPageInfo "Printers" "Configure printers"
             ["gnome-control-center"; "printers"]);
  ("accessibility", mkPageInfo "Accessibility" "Configure accessibility options"
             ["gnome-control-center"; "universal-access"]);
  ("privacy", mkPageInfo "Privacy & Security" "Configure privacy and security options"
             ["gnome-control-center"; "privacy"]);
  ("system", mkPageInfo "System Settings" "View system settings and information"
             ["gnome-control-center"; "system"]);
  ("region", mkPageInfo "Region & Language" "Configure locale and language"
             ["gnome-control-center"; "region"]);
  ("datetime", mkPageInfo "Date & Time" "Configure system clock and timezone"
             ["gnome-control-center"; "datetime"]);
  ("users", mkPageInfo "Users" "Manage user accounts"
             ["gnome-control-center"; "users"]);
  ("about", mkPageInfo "About" "System Software and Hardware details"
             ["gnome-control-center"; "about"])
].

(** The plugin object: the fields read by the query handlers.  [icon_path]
    is [str(Path(__file__).parent / "settings.svg")], which depends on the
    install location, so the constructor takes it as an argument. *)
Record Plugin := mkPlugin {
  settings_pages : list (string * PageInfo);
  icon_path : string
}.

Definition plugin_init (icon : string) : Plugin :=
  mkPlugin SETTINGS_PAGES icon.

(** Albert's [Action]: its callable is [subprocess.Popen(cmd)]; we record
    the argument vector that the callable spawns. *)
Record Action := mkAction {
  action_id : string;
  action_text : string;
  action_argv : list string
}.

(** Albert's [StandardItem]. *)
Record Item := mkItem {
  item_id : string;
  text : string;
  subtext : string;
  iconUrls : list string;
  actions : list Action
}.

Record RankItem := mkRankItem {
  item : Item;
  score : Z
}.

(** ** Operations *)

(** [self.settings_pages[k]]: [None] is the [KeyError]. *)
Fixpoint lookup (k : string) (d : list (string * PageInfo)) : option PageInfo :=
  match d with
  | [] => None
  | (k', v) :: rest => if k' =? k then Some v else lookup k rest
  end.

(** [k in self.settings_pages]. *)
Definition mem (k : string) (d : list (string * PageInfo)) : bool :=
  match lookup k d with Some _ => true | None => false end.

Notation "x <- m ;; k" :=
  (match m with Some x => k | None => None end)
  (at level 61, m at next level, right associativity).

(** The [StandardItem(...)] expression of [_create_item_for_page]. *)
Definition build_item (icon page_id : string) (page_info : PageInfo) : Item :=
  mkItem ("settings:" ++ page_id)
         (title page_info)
         (description page_info)
         ["file:" ++ icon]
         [mkAction ("open:" ++ page_id)
                   ("Open " ++ title page_info)
                   (command page_info)].

Definition _create_item_for_page (self : Plugin) (page_id : string) : option Item :=
  page_info <- lookup page_id (settings_pages self) ;;
  Some (build_item (icon_path self) page_id page_info).

(** The test of the [for] loop of [_get_matching_items]. *)
Definition page_matches (query_string page_id : string) (page_info : PageInfo) : bool :=
  contains query_string page_id
  || contains query_string (lower (title page_info))
  || contains query_string (lower (description page_info)).

(** [[self._create_item_for_page(page_id) for page_id in self.settings_pages]] *)
Fixpoint all_items (self : Plugin) (entries : list (string * PageInfo))
  : option (list Item) :=
  match entries with
  | [] => Some []
  | (page_id, _) :: rest =>
      it <- _create_item_for_page self page_id ;;
      its <- all_items self rest ;;
      Some (it :: its)
  end.

(** The [for] loop appending to [matching_items]. *)
Fixpoint matching_loop (self : Plugin) (query_string : string)
         (entries : list (string * PageInfo)) : option (list Item) :=
  match entries with
  | [] => Some []
  | (page_id, page_info) :: rest =>
      if page_matches query_string page_id page_info then
        it <- _create_item_for_page self page_id ;;
        its <- matching_loop self query_string rest ;;
        Some (it :: its)
      else matching_loop self query_string rest
  end.

Definition _get_matching_items (self : Plugin) (query_string : string)
  : option (list Item) :=
  if query_string =? "" then all_items self (settings_pages self)
  else matching_loop self query_string (settings_pages self).

(** [handleTriggerQuery]: the items handed to [query.add]. *)
Definition handleTriggerQuery (self : Plugin) (raw : string) : option (list Item) :=
  _get_matching_items self (normalize raw).

Definition handleGlobalQuery (self : Plugin) (raw : string) : option (list RankItem) :=
  let query_string := normalize raw in
  if negb (word_match query_string) then Some []
  else if mem query_string (settings_pages self) then
    it <- _create_item_for_page self query_string ;;
    Some [mkRankItem it 100]
  else Some [].

(** Names used by the specification. *)
Definition TriggeredSearch := handleTriggerQuery.
Definition ExactGlobalSearch := handleGlobalQuery.
Definition BuildItem := _create_item_for_page.

(** ** Specification-side vocabulary *)

(** [q] occurs in [s] as a contiguous substring. *)
Definition is_substring (q s : string) : Prop :=
  exists a b, s = a ++ q ++ b.

(** The spec's matching rule for a triggered query. *)
Definition substr_match (q page_id : string) (page_info : PageInfo) : Prop :=
  is_substring q page_id
  \/ is_substring q (lower (title page_info))
  \/ is_substring q (lower (description page_info)).

(** "q equal to a substring of e.id, e.title (case-insensitive) or
    e.description (case-insensitive)". *)
Definition ci_match (q page_id : string) (page_info : PageInfo) : Prop :=
  is_substring q page_id
  \/ is_substring (lower q) (lower (title page_info))
  \/ is_substring (lower q) (lower (description page_info)).

(** "a single whole word": a non-empty run of word characters. *)
Fixpoint all_word (s : string) : bool :=
  match s with
  | EmptyString => true
  | String c r => is_word c && all_word r
  end.

Definition is_single_word (s : string) : bool :=
  negb (s =? "") && all_word s.

(** Number of items of [items] that stand for the page [page_id]. *)
Definition items_for (page_id : string) (items : list Item) : nat :=
  length (filter (fun it => item_id it =? "settings:" ++ page_id) items).

Definition build_entry (icon : string) (e : string * PageInfo) : Item :=
  build_item icon (fst e) (snd e).

Definition catalog_ids : list string := map fst SETTINGS_PAGES.

(** ** Lemmas *)

Ltac catalog_cases H :=
  simpl in H;
  repeat (destruct H as [H|H]; [injection H as <- <-|]);
  [..| destruct H].

Lemma lookup_catalog : forall pid info,
  In (pid, info) SETTINGS_PAGES -> lookup pid SETTINGS_PAGES = Some info.
Proof. intros pid info H; catalog_cases H; reflexivity. Qed.

Lemma lookup_In : forall k v d, lookup k d = Some v -> In (k, v) d.
Proof.
  intros k v d; induction d as [|[k' v'] d IH]; simpl; [discriminate|].
  destruct (String.eqb_spec k' k) as [->|_]; [injection 1 as ->; auto|auto].
Qed.

Lemma lookup_None : forall k d, ~ In k (map fst d) -> lookup k d = None.
Proof.
  intros k d; induction d as [|[k' v'] d IH]; simpl; [reflexivity|].
  intros Hn; destruct (String.eqb_spec k' k); [tauto|auto].
Qed.

Lemma catalog_ids_NoDup : NoDup catalog_ids.
Proof.
  unfold catalog_ids; simpl.
  repeat (constructor; [simpl; intros H; repeat (destruct H as [H|H]; [discriminate H|]); exact H|]).
  constructor.
Qed.

Lemma create_catalog : forall icon pid info,
  In (pid, info) SETTINGS_PAGES ->
  _create_item_for_page (plugin_init icon) pid = Some (build_item icon pid info).
Proof.
  intros icon pid info H; unfold _create_item_for_page, plugin_init.
  cbn [settings_pages icon_path]. rewrite (lookup_catalog _ _ H); reflexivity.
Qed.

Lemma all_items_catalog : forall icon L, incl L SETTINGS_PAGES ->
  all_items (plugin_init icon) L = Some (map (build_entry icon) L).
Proof.
  intros icon L; induction L as [|[pid info] L IH]; intros Hi; [reflexivity|].
  simpl. rewrite (create_catalog icon pid info) by (apply Hi; left; reflexivity).
  rewrite IH by (intros x Hx; apply Hi; right; exact Hx). reflexivity.
Qed.

Lemma matching_loop_catalog : forall icon q L, incl L SETTINGS_PAGES ->
  matching_loop (plugin_init icon) q L =
  Some (map (build_entry icon) (filter (fun e => page_matches q (fst e) (snd e)) L)).
Proof.
  intros icon q L; induction L as [|[pid info] L IH]; intros Hi; [reflexivity|].
  simpl. rewrite IH by (intros x Hx; apply Hi; right; exact Hx).
  destruct (page_matches q pid info); [|reflexivity].
  rewrite (create_catalog icon pid info) by (apply Hi; left; reflexivity).
  reflexivity.
Qed.

Lemma filter_all_true : forall {A} (l : list A), filter (fun _ => true) l = l.
Proof. intros A l; induction l; simpl; congruence. Qed.

Lemma get_matching_catalog : forall icon q,
  _get_matching_items (plugin_init icon) q =
  Some (map (build_entry icon)
         (filter (fun e => (q =? "") || page_matches q (fst e) (snd e)) SETTINGS_PAGES)).
Proof.
  intros icon q; unfold _get_matching_items.
  destruct (q =? "") eqn:E; cbn [orb].
  - rewrite filter_all_true. apply all_items_catalog, incl_refl.
  - apply matching_loop_catalog, incl_refl.
Qed.

Lemma settings_eqb : forall a b, ("settings:" ++ a =? "settings:" ++ b) = (a =? b).
Proof. reflexivity. Qed.

Lemma items_for_cons : forall icon pid k v l,
  items_for pid (build_entry icon (k, v) :: l) =
  ((if String.eqb k pid then 1 else 0) + items_for pid l)%nat.
Proof.
  intros icon pid k v l; unfold items_for at 1.
  cbn [filter build_entry build_item item_id fst snd].
  rewrite settings_eqb. destruct (String.eqb k pid); reflexivity.
Qed.

Lemma items_for_absent : forall icon pid P L, ~ In pid (map fst L) ->
  items_for pid (map (build_entry icon) (filter P L)) = 0%nat.
Proof.
  intros icon pid P L; induction L as [|[k v] L IH]; simpl; intros Hn; [reflexivity|].
  destruct (P (k, v)); [|tauto].
  cbn [map]; rewrite items_for_cons.
  destruct (String.eqb_spec k pid); [tauto|]. apply IH; tauto.
Qed.

Lemma items_for_count : forall icon pid info P L,
  NoDup (map fst L) -> In (pid, info) L ->
  items_for pid (map (build_entry icon) (filter P L)) =
  if P (pid, info) then 1%nat else 0%nat.
Proof.
  intros icon pid info P L; induction L as [|[k v] L IH]; simpl; intros Hnd Hin;
    [destruct Hin|].
  inversion Hnd as [|? ? Hk Hnd']; subst.
  destruct Hin as [Heq|Hin].
  - injection Heq as -> ->.
    destruct (P (pid, info)); [cbn [map]; rewrite items_for_cons, String.eqb_refl|];
      rewrite items_for_absent; auto.
  - assert (k <> pid) by (intros ->; apply Hk; apply in_map_iff; exists (pid, info); auto).
    destruct (P (k, v)); [|auto].
    cbn [map]; rewrite items_for_cons.
    destruct (String.eqb_spec k pid); [congruence|]. apply IH; auto.
Qed.

(** *** Strings *)

Lemma append_nil_r : forall s, s ++ "" = s.
Proof. induction s; simpl; congruence. Qed.

Lemma append_assoc_s : forall a b c, (a ++ b) ++ c = a ++ (b ++ c).
Proof. induction a; intros; simpl; congruence. Qed.

Lemma lower_app : forall a b, lower (a ++ b) = lower a ++ lower b.
Proof. induction a; intros; simpl; congruence. Qed.

Lemma prefix_spec : forall q s, prefix q s = true <-> exists b, s = q ++ b.
Proof.
  induction q as [|c q IH]; intros s.
  - split; [intros _; exists s; reflexivity|intros _; destruct s; reflexivity].
  - destruct s as [|c' s]; simpl.
    + split; [discriminate|intros [b Hb]; discriminate].
    + destruct (ascii_dec c c') as [->|Hne].
      * rewrite IH; split; intros [b Hb]; exists b; congruence.
      * split; [discriminate|intros [b Hb]; congruence].
Qed.

Lemma contains_spec : forall q s, contains q s = true <-> is_substring q s.
Proof.
  intros q s; unfold is_substring; induction s as [|c s IH]; cbn [contains].
  - rewrite orb_false_r, prefix_spec. split.
    + intros [b Hb]; exists "", b; exact Hb.
    + intros [a [b Hab]]; destruct a; [exists b; exact Hab|discriminate].
  - rewrite orb_true_iff, prefix_spec, IH. split.
    + intros [[b Hb]|[a [b Hab]]].
      * exists "", b; exact Hb.
      * exists (String c a), b; simpl; congruence.
    + intros [a [b Hab]]. destruct a as [|c' a].
      * left; exists b; exact Hab.
      * right; exists a, b; simpl in Hab; congruence.
Qed.

Lemma is_substring_trans : forall x y z,
  is_substring x y -> is_substring y z -> is_substring x z.
Proof.
  intros x y z [a [b ->]] [a' [b' ->]].
  exists (a' ++ a), (b ++ b').
  rewrite !append_assoc_s; reflexivity.
Qed.

Lemma is_substring_lower : forall x y,
  is_substring x y -> is_substring (lower x) (lower y).
Proof.
  intros x y [a [b ->]]; exists (lower a), (lower b).
  rewrite !lower_app; reflexivity.
Qed.

Lemma lstrip_suffix : forall s, exists a, s = a ++ lstrip s.
Proof.
  induction s as [|c s [a Ha]]; simpl; [exists ""; reflexivity|].
  destruct (is_space c); [exists (String c a); simpl; congruence|exists ""; reflexivity].
Qed.

Lemma rstrip_prefix : forall s, exists b, s = rstrip s ++ b.
Proof.
  induction s as [|c s [b Hb]]; simpl; [exists ""; reflexivity|].
  destruct ((rstrip s =? "") && is_space c) eqn:E.
  - apply andb_true_iff in E as [E _]; apply String.eqb_eq in E.
    exists (String c s); reflexivity.
  - exists b; simpl; congruence.
Qed.

(** The normalized query occurs in the lower-cased raw query. *)
Lemma normalize_in_lower : forall q, is_substring (normalize q) (lower q).
Proof.
  intros q. destruct (lstrip_suffix q) as [a Ha].
  destruct (rstrip_prefix (lstrip q)) as [b Hb].
  exists (lower a), (lower b). unfold normalize, strip.
  rewrite <- !lower_app, <- Hb, <- Ha; reflexivity.
Qed.

(** *** Stripping and the word pattern *)

Lemma space_lower_char : forall c, is_space (lower_char c) = is_space c.
Proof. intros [[] [] [] [] [] [] [] []]; reflexivity. Qed.

Lemma word_not_space : forall c, is_word c = true -> is_space c = false.
Proof. intros [[] [] [] [] [] [] [] []]; first [reflexivity | discriminate]. Qed.

Lemma lower_eqb_empty : forall s, (lower s =? "") = (s =? "").
Proof. intros []; reflexivity. Qed.

Lemma lstrip_lower : forall s, lstrip (lower s) = lower (lstrip s).
Proof.
  induction s as [|c s IH]; simpl; [reflexivity|].
  rewrite space_lower_char; destruct (is_space c); [exact IH|reflexivity].
Qed.

Lemma rstrip_lower : forall s, rstrip (lower s) = lower (rstrip s).
Proof.
  induction s as [|c s IH]; simpl; [reflexivity|].
  rewrite IH, lower_eqb_empty, space_lower_char.
  destruct ((rstrip s =? "") && is_space c); reflexivity.
Qed.

Lemma lstrip_length : forall s, (String.length (lstrip s) <= String.length s)%nat.
Proof.
  induction s as [|c s IH]; simpl; [lia|].
  destruct (is_space c); simpl; lia.
Qed.

Lemma lstrip_idem : forall s, lstrip (lstrip s) = lstrip s.
Proof.
  induction s as [|c s IH]; simpl; [reflexivity|].
  destruct (is_space c) eqn:E; [exact IH|simpl; rewrite E; reflexivity].
Qed.

Lemma rstrip_idem : forall s, rstrip (rstrip s) = rstrip s.
Proof.
  induction s as [|c s IH]; simpl; [reflexivity|].
  destruct ((rstrip s =? "") && is_space c) eqn:E; [reflexivity|].
  simpl; rewrite IH, E; reflexivity.
Qed.

Lemma lstrip_fixed_head : forall c r,
  lstrip (String c r) = String c r -> is_space c = false.
Proof.
  intros c r H; simpl in H; destruct (is_space c); [|reflexivity].
  pose proof (lstrip_length r) as Hl; rewrite H in Hl; simpl in Hl; lia.
Qed.

Lemma lstrip_rstrip : forall x, lstrip x = x -> lstrip (rstrip x) = rstrip x.
Proof.
  intros [|c r] H; [reflexivity|].
  pose proof (lstrip_fixed_head c r H) as Hc; simpl.
  rewrite Hc, andb_false_r; simpl; rewrite Hc; reflexivity.
Qed.

(** The normalized query has no surrounding whitespace. *)
Lemma normalize_fixed : forall q,
  lstrip (normalize q) = normalize q /\ rstrip (normalize q) = normalize q.
Proof.
  intros q; unfold normalize, strip.
  rewrite lstrip_lower, rstrip_lower, rstrip_idem,
    (lstrip_rstrip (lstrip q) (lstrip_idem q)).
  split; reflexivity.
Qed.

Lemma trail_all_space : forall r, word_match_from Trail r = true -> rstrip r = "".
Proof.
  induction r as [|c r IH]; simpl; [reflexivity|].
  destruct (is_space c) eqn:Hc; [|discriminate].
  intros H; rewrite (IH H); reflexivity.
Qed.

Lemma inword_all_word : forall s,
  word_match_from InWord s = true -> rstrip s = s -> all_word s = true.
Proof.
  induction s as [|c s IH]; simpl; [reflexivity|].
  intros Hm Hr.
  destruct (is_word c) eqn:Hw.
  - rewrite (word_not_space c Hw), andb_false_r in Hr.
    injection Hr as Hr. simpl; apply IH; assumption.
  - destruct (is_space c) eqn:Hs; [|discriminate].
    rewrite (trail_all_space s Hm) in Hr; discriminate.
Qed.

(** On a string with no surrounding whitespace, the pattern accepts
    exactly the single words. *)
Lemma word_match_single : forall s,
  word_match s = true -> lstrip s = s -> rstrip s = s -> is_single_word s = true.
Proof.
  unfold word_match. intros [|c r] Hm Hl Hr; [discriminate|].
  pose proof (lstrip_fixed_head c r Hl) as Hs.
  simpl in Hm; rewrite Hs in Hm.
  destruct (is_word c) eqn:Hw; [|discriminate].
  simpl in Hr; rewrite Hs, andb_false_r in Hr; injection Hr as Hr.
  unfold is_single_word; simpl; rewrite Hw; simpl.
  apply inword_all_word; assumption.
Qed.

Lemma word_match_normalize : forall q,
  word_match (normalize q) = true -> is_single_word (normalize q) = true.
Proof.
  intros q H; destruct (normalize_fixed q) as [Hl Hr].
  apply word_match_single; assumption.
Qed.

Lemma page_matches_spec : forall q pid info,
  page_matches q pid info = true <-> substr_match q pid info.
Proof.
  intros q pid info; unfold page_matches, substr_match.
  rewrite !orb_true_iff, !contains_spec; tauto.
Qed.

Lemma lower_catalog_id : forall pid info,
  In (pid, info) SETTINGS_PAGES -> lower pid = pid.
Proof. intros pid info H; catalog_cases H; reflexivity. Qed.

Lemma is_substring_refl : forall s, is_substring s s.
Proof. intros s; exists "", ""; simpl; rewrite append_nil_r; reflexivity. Qed.

(** ** Claims *)

(** C1 (amended): for every catalog id [k] that is a single word (every id
    except ["online-accounts"], whose hyphen fails the word pattern),
    [ExactGlobalSearch k] returns exactly one result: the item for [k]
    with score 100. *)
Theorem exact_global_search_word_id : forall icon k info,
  In (k, info) SETTINGS_PAGES -> is_single_word k = true ->
  ExactGlobalSearch (plugin_init icon) k = Some [mkRankItem (build_item icon k info) 100].
Proof.
  intros icon k info H Hw; catalog_cases H; first [reflexivity | discriminate Hw].
Qed.

Lemma exact_global_search_word_id_witness :
  In ("network", mkPageInfo "Network" "Configure network connections"
                   ["gnome-control-center"; "network"]) SETTINGS_PAGES
  /\ is_single_word "network" = true
  /\ ExactGlobalSearch (plugin_init "settings.svg") "network" =
     Some [mkRankItem (build_item "settings.svg" "network"
             (mkPageInfo "Network" "Configure network connections"
                ["gnome-control-center"; "network"])) 100].
Proof.
  split; [right; left; reflexivity|split; [reflexivity|]].
  apply exact_global_search_word_id; [right; left; reflexivity|reflexivity].
Defined.

(** C1 counterexample: ["online-accounts"] is a catalog id, yet
    [ExactGlobalSearch "online-accounts"] returns no result. *)
Lemma online_accounts_not_found_globally :
  In "online-accounts" catalog_ids
  /\ ExactGlobalSearch (plugin_init "settings.svg") "online-accounts" = Some [].
Proof. split; [do 10 right; left; reflexivity|reflexivity]. Qed.

(** C2 (amended): when the trimmed, lower-cased query is not a single
    non-empty run of word characters, [ExactGlobalSearch] returns the
    empty sequence. *)
Theorem exact_global_search_non_word_empty : forall icon raw,
  is_single_word (normalize raw) = false ->
  ExactGlobalSearch (plugin_init icon) raw = Some [].
Proof.
  intros icon raw H; unfold ExactGlobalSearch, handleGlobalQuery.
  destruct (word_match (normalize raw)) eqn:E; [|reflexivity].
  rewrite (word_match_normalize raw E) in H; discriminate.
Qed.

Lemma exact_global_search_non_word_empty_witness :
  is_single_word (normalize "net work") = false
  /\ ExactGlobalSearch (plugin_init "settings.svg") "net work" = Some [].
Proof.
  split; [reflexivity|].
  apply exact_global_search_non_word_empty; reflexivity.
Defined.

(** C2 counterexample: [" network"] contains whitespace, yet
    [ExactGlobalSearch] returns a result for it (it is trimmed first). *)
Lemma leading_space_still_found_globally :
  contains " " " network" = true
  /\ ExactGlobalSearch (plugin_init "settings.svg") " network" <> Some [].
Proof. split; [reflexivity|vm_compute; discriminate]. Qed.

(** C3: a query that normalizes to the empty string returns one item per
    catalog entry, as many as the catalog has entries, in catalog order. *)
Theorem triggered_search_empty_all : forall icon raw,
  normalize raw = "" ->
  exists items, TriggeredSearch (plugin_init icon) raw = Some items
    /\ length items = length SETTINGS_PAGES
    /\ items = map (build_entry icon) SETTINGS_PAGES.
Proof.
  intros icon raw H; exists (map (build_entry icon) SETTINGS_PAGES).
  split; [|split; [apply length_map|reflexivity]].
  unfold TriggeredSearch, handleTriggerQuery, _get_matching_items.
  rewrite H; cbn [String.eqb]. apply all_items_catalog, incl_refl.
Qed.

Lemma triggered_search_empty_all_witness :
  normalize "   " = ""
  /\ exists items, TriggeredSearch (plugin_init "settings.svg") "   " = Some items
    /\ length items = length SETTINGS_PAGES
    /\ items = map (build_entry "settings.svg") SETTINGS_PAGES.
Proof.
  split; [reflexivity|]. apply triggered_search_empty_all; reflexivity.
Defined.

(** C4: for a non-empty normalized query [q], [TriggeredSearch q] returns,
    in catalog order, the items of exactly those entries whose id, lower-cased
    title or lower-cased description contains [q], one item per matching
    entry and none for the others; and for every entry [e] and every query
    equal to a substring of [e]'s id, or (case-insensitively) of its title or
    description, [TriggeredSearch] returns exactly one item for [e]. *)
Theorem triggered_search_substring : forall icon,
  (forall q, normalize q = q -> q <> "" ->
     exists items, TriggeredSearch (plugin_init icon) q = Some items
       /\ items = map (build_entry icon)
                    (filter (fun e => page_matches q (fst e) (snd e)) SETTINGS_PAGES)
       /\ (forall pid info, In (pid, info) SETTINGS_PAGES ->
             (substr_match q pid info -> items_for pid items = 1%nat)
             /\ (~ substr_match q pid info -> items_for pid items = 0%nat)))
  /\ (forall pid info q, In (pid, info) SETTINGS_PAGES -> ci_match q pid info ->
        exists items, TriggeredSearch (plugin_init icon) q = Some items
          /\ items_for pid items = 1%nat).
Proof.
  intros icon; split.
  - intros q Hn Hne.
    eexists; split; [|split; [reflexivity|]].
    + unfold TriggeredSearch, handleTriggerQuery; rewrite Hn, get_matching_catalog.
      apply String.eqb_neq in Hne; rewrite Hne; reflexivity.
    + intros pid info Hin.
      rewrite (items_for_count icon pid info _ SETTINGS_PAGES catalog_ids_NoDup Hin).
      cbn [fst snd]. split.
      * intros Hs; apply page_matches_spec in Hs; rewrite Hs; reflexivity.
      * intros Hs. destruct (page_matches q pid info) eqn:E; [|reflexivity].
        apply page_matches_spec in E; contradiction.
  - intros pid info q Hin Hci.
    eexists; split.
    + unfold TriggeredSearch, handleTriggerQuery; apply get_matching_catalog.
    + rewrite (items_for_count icon pid info _ SETTINGS_PAGES catalog_ids_NoDup Hin).
      cbn [fst snd].
      assert (Hm : substr_match (normalize q) pid info).
      { pose proof (normalize_in_lower q) as Hq.
        destruct Hci as [Hs|[Hs|Hs]].
        - left. apply is_substring_lower in Hs.
          rewrite (lower_catalog_id pid info Hin) in Hs.
          eapply is_substring_trans; eassumption.
        - right; left; eapply is_substring_trans; eassumption.
        - right; right; eapply is_substring_trans; eassumption. }
      apply page_matches_spec in Hm; rewrite Hm, orb_true_r; reflexivity.
Qed.

Lemma triggered_search_substring_witness :
  normalize "wire" = "wire" /\ "wire" <> ""
  /\ exists items, TriggeredSearch (plugin_init "settings.svg") "wire" = Some items
       /\ items = map (build_entry "settings.svg")
                    (filter (fun e => page_matches "wire" (fst e) (snd e)) SETTINGS_PAGES)
       /\ (forall pid info, In (pid, info) SETTINGS_PAGES ->
             (substr_match "wire" pid info -> items_for pid items = 1%nat)
             /\ (~ substr_match "wire" pid info -> items_for pid items = 0%nat)).
Proof.
  split; [reflexivity|split; [discriminate|]].
  apply (proj1 (triggered_search_substring "settings.svg")); [reflexivity|discriminate].
Defined.

(** C5: a single-word query whose normalized form is not a catalog id
    yields the empty result sequence, with no error. *)
Theorem exact_global_search_miss_empty : forall icon raw,
  is_single_word (normalize raw) = true ->
  ~ In (normalize raw) catalog_ids ->
  ExactGlobalSearch (plugin_init icon) raw = Some [].
Proof.
  intros icon raw _ Hn; unfold ExactGlobalSearch, handleGlobalQuery, mem.
  destruct (word_match (normalize raw)); [|reflexivity].
  cbn [negb settings_pages plugin_init]. rewrite lookup_None by exact Hn.
  reflexivity.
Qed.

Lemma exact_global_search_miss_empty_witness :
  is_single_word (normalize "Net") = true
  /\ ~ In (normalize "Net") catalog_ids
  /\ ExactGlobalSearch (plugin_init "settings.svg") "Net" = Some [].
Proof.
  assert (Hn : ~ In (normalize "Net") catalog_ids).
  { cbn. intros H; repeat (destruct H as [H|H]; [discriminate H|]); exact H. }
  split; [reflexivity|split; [exact Hn|]].
  apply exact_global_search_miss_empty; [reflexivity|exact Hn].
Defined.

(** C6: [ExactGlobalSearch "network"] is the one-element sequence of the
    item for ["network"] with score 100, and [ExactGlobalSearch "net"] is
    empty. *)
Theorem exact_global_search_network : forall icon,
  ExactGlobalSearch (plugin_init icon) "network" =
    Some [mkRankItem (build_item icon "network"
            (mkPageInfo "Network" "Configure network connections"
               ["gnome-control-center"; "network"])) 100]
  /\ ExactGlobalSearch (plugin_init icon) "net" = Some [].
Proof. intros icon; split; reflexivity. Qed.

(** C7: [TriggeredSearch "wifi"] returns exactly one item, whose primary
    text is ["Wi-Fi"]. *)
Theorem triggered_search_wifi : forall icon,
  exists it, TriggeredSearch (plugin_init icon) "wifi" = Some [it]
    /\ text it = "Wi-Fi".
Proof. intros icon; eexists; split; reflexivity. Qed.

(** C8: for every catalog entry, [BuildItem] yields the item with id
    ["settings:" ++ page_id], the title as text, the description as
    subtext, the one icon shared by all entries, and exactly one action
    whose argument vector is the entry's command; for ["display"] that
    vector is [["gnome-control-center"; "display"]]. *)
Theorem build_item_fields : forall icon,
  (forall page_id info, In (page_id, info) SETTINGS_PAGES ->
     exists it a, BuildItem (plugin_init icon) page_id = Some it
       /\ item_id it = "settings:" ++ page_id
       /\ text it = title info
       /\ subtext it = description info
       /\ iconUrls it = ["file:" ++ icon]
       /\ actions it = [a]
       /\ action_argv a = command info)
  /\ (exists it a, BuildItem (plugin_init icon) "display" = Some it
       /\ actions it = [a]
       /\ action_argv a = ["gnome-control-center"; "display"]).
Proof.
  intros icon; split.
  - intros page_id info Hin.
    exists (build_item icon page_id info),
      (mkAction ("open:" ++ page_id) ("Open " ++ title info) (command info)).
    split; [apply create_catalog; exact Hin|].
    repeat split.
  - do 2 eexists; split; [reflexivity|split; reflexivity].
Qed.

Lemma build_item_fields_witness :
  In ("display", mkPageInfo "Displays" "Configure monitors and displays"
                   ["gnome-control-center"; "display"]) SETTINGS_PAGES
  /\ exists it a, BuildItem (plugin_init "settings.svg") "display" = Some it
       /\ item_id it = "settings:" ++ "display"
       /\ text it = "Displays"
       /\ subtext it = "Configure monitors and displays"
       /\ iconUrls it = ["file:" ++ "settings.svg"]
       /\ actions it = [a]
       /\ action_argv a = ["gnome-control-center"; "display"].
Proof.
  assert (Hin : In ("display", mkPageInfo "Displays" "Configure monitors and displays"
                   ["gnome-control-center"; "display"]) SETTINGS_PAGES)
    by (do 3 right; left; reflexivity).
  split; [exact Hin|].
  exact (proj1 (build_item_fields "settings.svg") _ _ Hin).
Defined.

(** C9: every catalog command is ["gnome-control-center"] followed by one
    argument: the entry's id, except for ["accessibility"], whose argument
    is ["universal-access"]. *)
Theorem catalog_commands : forall k info,
  In (k, info) SETTINGS_PAGES ->
  command info = ["gnome-control-center";
                  if k =? "accessibility" then "universal-access" else k].
Proof. intros k info H; catalog_cases H; reflexivity. Qed.

Lemma catalog_commands_witness :
  In ("accessibility", mkPageInfo "Accessibility" "Configure accessibility options"
        ["gnome-control-center"; "universal-access"]) SETTINGS_PAGES
  /\ ["gnome-control-center"; "universal-access"] =
     ["gnome-control-center";
      if "accessibility" =? "accessibility" then "universal-access" else "accessibility"].
Proof.
  assert (Hin : In ("accessibility", mkPageInfo "Accessibility"
                     "Configure accessibility options"
                     ["gnome-control-center"; "universal-access"]) SETTINGS_PAGES)
    by (do 16 right; left; reflexivity).
  split; [exact Hin|].
  exact (catalog_commands _ _ Hin).
Defined.

(** C10: every item returned by [ExactGlobalSearch q] is also returned by
    [TriggeredSearch q]. *)
Theorem global_subset_triggered : forall icon raw rs r,
  ExactGlobalSearch (plugin_init icon) raw = Some rs -> In r rs ->
  exists items, TriggeredSearch (plugin_init icon) raw = Some items
    /\ In (item r) items.
Proof.
  intros icon raw rs r Hg Hr.
  unfold ExactGlobalSearch, handleGlobalQuery, mem, _create_item_for_page in Hg.
  cbn [settings_pages icon_path plugin_init] in Hg.
  destruct (word_match (normalize raw)); cbn [negb] in Hg;
    [|injection Hg as <-; destruct Hr].
  destruct (lookup (normalize raw) SETTINGS_PAGES) as [info|] eqn:L;
    [|injection Hg as <-; destruct Hr].
  injection Hg as <-. destruct Hr as [<-|[]]. cbn [item].
  eexists; split.
  - unfold TriggeredSearch, handleTriggerQuery; apply get_matching_catalog.
  - apply in_map_iff. exists (normalize raw, info). split; [reflexivity|].
    apply filter_In. split; [apply lookup_In; exact L|].
    cbn [fst snd]. apply orb_true_iff; right.
    apply page_matches_spec. left; apply is_substring_refl.
Qed.

Lemma global_subset_triggered_witness :
  ExactGlobalSearch (plugin_init "settings.svg") "Sound" =
    Some [mkRankItem (build_item "settings.svg" "sound"
            (mkPageInfo "Sound" "Configure audio devices and volume"
               ["gnome-control-center"; "sound"])) 100]
  /\ exists items, TriggeredSearch (plugin_init "settings.svg") "Sound" = Some items
       /\ In (build_item "settings.svg" "sound"
               (mkPageInfo "Sound" "Configure audio devices and volume"
                  ["gnome-control-center"; "sound"])) items.
Proof.
  assert (Hg : ExactGlobalSearch (plugin_init "settings.svg") "Sound" =
    Some [mkRankItem (build_item "settings.svg" "sound"
            (mkPageInfo "Sound" "Configure audio devices and volume"
               ["gnome-control-center"; "sound"])) 100]) by reflexivity.
  split; [exact Hg|].
  exact (global_subset_triggered "settings.svg" "Sound" _ _ Hg (or_introl eq_refl)).
Defined.

(** ** Further properties of the handlers *)

(** *** Helper lemmas *)

Lemma lookup_In_ids : forall k d, In k (map fst d) -> exists v, lookup k d = Some v.
Proof.
  intros k d; induction d as [|[k' v'] d IH]; simpl; [tauto|].
  intros [->|H]; [rewrite String.eqb_refl; eauto|].
  destruct (k' =? k); eauto.
Qed.

Lemma catalog_command_shape : forall k info,
  In (k, info) SETTINGS_PAGES ->
  exists arg, command info = ["gnome-control-center"; arg].
Proof. intros k info H; catalog_cases H; eexists; reflexivity. Qed.

Lemma all_word_inword : forall s, all_word s = true -> word_match_from InWord s = true.
Proof.
  induction s as [|c s IH]; simpl; [reflexivity|].
  intros H; apply andb_true_iff in H as [Hc Hs]; rewrite Hc; auto.
Qed.

Lemma single_word_match : forall s, is_single_word s = true -> word_match s = true.
Proof.
  intros [|c s] H; [discriminate|]. unfold is_single_word in H; simpl in H.
  apply andb_true_iff in H as [Hc Hs]. unfold word_match; simpl.
  rewrite (word_not_space c Hc), Hc; apply all_word_inword; exact Hs.
Qed.

Lemma lower_char_idem : forall c, lower_char (lower_char c) = lower_char c.
Proof. intros [[] [] [] [] [] [] [] []]; reflexivity. Qed.

Lemma lower_idem : forall s, lower (lower s) = lower s.
Proof. induction s; simpl; [reflexivity|]; rewrite lower_char_idem; congruence. Qed.

Lemma normalize_lower : forall raw, normalize (lower raw) = normalize raw.
Proof.
  intros raw; unfold normalize, strip.
  rewrite lstrip_lower, rstrip_lower, lower_idem; reflexivity.
Qed.

Lemma rstrip_app_space : forall s c, is_space c = true ->
  rstrip (s ++ String c "") = rstrip s.
Proof.
  intros s c Hc; induction s as [|c' s IH]; simpl.
  - rewrite Hc; reflexivity.
  - rewrite IH; reflexivity.
Qed.

Lemma lstrip_app_space : forall s c, is_space c = true ->
  lstrip (s ++ String c "") = lstrip s ++ String c ""
  \/ (lstrip (s ++ String c "") = "" /\ lstrip s = "").
Proof.
  intros s c Hc; induction s as [|c' s IH]; simpl.
  - rewrite Hc; right; split; reflexivity.
  - destruct (is_space c'); [exact IH|left; reflexivity].
Qed.

Lemma normalize_pad : forall raw c, is_space c = true ->
  normalize (String c raw) = normalize raw
  /\ normalize (raw ++ String c "") = normalize raw.
Proof.
  intros raw c Hc; unfold normalize, strip; simpl; rewrite Hc; split; [reflexivity|].
  destruct (lstrip_app_space raw c Hc) as [-> | [-> ->]];
    [rewrite rstrip_app_space by exact Hc|]; reflexivity.
Qed.

Lemma is_substring_empty : forall q, is_substring q "" -> q = "".
Proof. intros q [a [b H]]; destruct a, q; simpl in H; congruence. Qed.

Lemma incl_map_filter : forall {A B} (f : A -> B) (P P' : A -> bool) L,
  (forall e, P' e = true -> P e = true) ->
  incl (map f (filter P' L)) (map f (filter P L)).
Proof.
  intros A B f P P' L H x Hx. apply in_map_iff in Hx as [e [<- He]].
  apply filter_In in He as [HL HP]. apply in_map; apply filter_In; auto.
Qed.

Lemma NoDup_map_fst_filter : forall {A B} (P : A * B -> bool) L,
  NoDup (map fst L) -> NoDup (map fst (filter P L)).
Proof.
  intros A B P L; induction L as [|[k v] L IH]; simpl; intros H; [constructor|].
  inversion H as [|? ? Hk Hnd]; subst.
  destruct (P (k, v)); simpl; [constructor|]; auto.
  intros Hin; apply Hk. apply in_map_iff in Hin as [e [<- He]].
  apply filter_In in He as [He _]. apply in_map; exact He.
Qed.

Lemma NoDup_map_settings : forall l,
  NoDup l -> NoDup (map (fun k => "settings:" ++ k) l).
Proof.
  induction l as [|k l IH]; simpl; intros H; [constructor|].
  inversion H as [|? ? Hk Hnd]; subst. constructor; auto.
  intros Hin; apply in_map_iff in Hin as [k' [Heq Hk']].
  assert (k' = k) as -> by (simpl in Heq; congruence).
  contradiction.
Qed.

Lemma length_filter_le' : forall {A} (P : A -> bool) l, (length (filter P l) <= length l)%nat.
Proof. intros A P l; induction l; simpl; [lia|]; destruct (P a); simpl; lia. Qed.

(** An item whose single action runs [gnome-control-center] with one argument. *)
Definition launches_control_center (it : Item) : Prop :=
  exists a arg, actions it = [a] /\ action_argv a = ["gnome-control-center"; arg].

(** *** Theorems *)

(** [_create_item_for_page] raises [KeyError] exactly on ids that are not
    keys of the catalog. *)
Theorem build_item_key_error : forall icon k,
  BuildItem (plugin_init icon) k = None <-> ~ In k catalog_ids.
Proof.
  intros icon k; unfold BuildItem, _create_item_for_page, plugin_init.
  cbn [settings_pages icon_path]. split.
  - intros H Hin. destruct (lookup_In_ids k SETTINGS_PAGES Hin) as [v Hv].
    rewrite Hv in H; discriminate.
  - intros Hn; rewrite lookup_None by exact Hn; reflexivity.
Qed.



(** A triggered query never raises, returns no two items with the same id,
    and returns at most as many items as the catalog has entries. *)
Theorem triggered_search_distinct_bounded : forall icon raw,
  exists items, TriggeredSearch (plugin_init icon) raw = Some items
    /\ NoDup (map item_id items)
    /\ (length items <= length SETTINGS_PAGES)%nat.
Proof.
  intros icon raw; eexists; split.
  - unfold TriggeredSearch, handleTriggerQuery; apply get_matching_catalog.
  - split.
    + rewrite map_map.
      match goal with |- NoDup (map _ ?l) =>
        replace (map _ l) with (map (fun k => "settings:" ++ k) (map fst l))
          by (rewrite map_map; reflexivity) end.
      apply NoDup_map_settings, NoDup_map_fst_filter, catalog_ids_NoDup.
    + rewrite length_map; apply length_filter_le'.
Qed.

(** Refining a triggered query (its normalized form grows around the old
    one) never adds items: the results of the longer query are among those
    of the shorter one. *)
Theorem triggered_search_refine : forall icon raw raw',
  is_substring (normalize raw) (normalize raw') ->
  exists its its', TriggeredSearch (plugin_init icon) raw = Some its
    /\ TriggeredSearch (plugin_init icon) raw' = Some its'
    /\ incl its' its.
Proof.
  intros icon raw raw' Hsub.
  do 2 eexists; split; [|split].
  - unfold TriggeredSearch, handleTriggerQuery; apply get_matching_catalog.
  - unfold TriggeredSearch, handleTriggerQuery; apply get_matching_catalog.
  - apply incl_map_filter. intros [pid info]; cbn [fst snd].
    destruct (normalize raw =? "") eqn:Eq; [reflexivity|]. cbn [orb].
    destruct (normalize raw' =? "") eqn:Eq'.
    + apply String.eqb_eq in Eq'; rewrite Eq' in Hsub.
      apply is_substring_empty in Hsub; rewrite Hsub in Eq; discriminate.
    + cbn [orb]; rewrite !page_matches_spec.
      intros [H|[H|H]]; [left|right; left|right; right];
        eapply is_substring_trans; eassumption.
Qed.

Lemma triggered_search_refine_witness :
  is_substring (normalize "Net") (normalize " network")
  /\ exists its its', TriggeredSearch (plugin_init "settings.svg") "Net" = Some its
    /\ TriggeredSearch (plugin_init "settings.svg") " network" = Some its'
    /\ incl its' its.
Proof.
  assert (H : is_substring (normalize "Net") (normalize " network"))
    by (exists "", "work"; reflexivity).
  split; [exact H|]. exact (triggered_search_refine "settings.svg" _ _ H).
Defined.

(** A global query never raises and returns at most one result; a result
    has score 100 and the id of the normalized query. *)
Theorem exact_global_search_shape : forall icon raw,
  exists rs, ExactGlobalSearch (plugin_init icon) raw = Some rs
    /\ (length rs <= 1)%nat
    /\ Forall (fun r => score r = 100%Z
                        /\ item_id (item r) = "settings:" ++ normalize raw) rs.
Proof.
  intros icon raw.
  unfold ExactGlobalSearch, handleGlobalQuery, mem, _create_item_for_page, plugin_init.
  cbn [settings_pages icon_path].
  destruct (word_match (normalize raw)); cbn [negb];
    [destruct (lookup (normalize raw) SETTINGS_PAGES)|];
    eexists; (split; [reflexivity|]); split; cbn; try lia;
    repeat constructor.
Qed.

(** A global query returns a result exactly when its normalized form is a
    single word and a key of the catalog. *)
Theorem exact_global_search_nonempty_iff : forall icon raw,
  ExactGlobalSearch (plugin_init icon) raw <> Some [] <->
  is_single_word (normalize raw) = true /\ In (normalize raw) catalog_ids.
Proof.
  intros icon raw.
  unfold ExactGlobalSearch, handleGlobalQuery, mem, _create_item_for_page, plugin_init.
  cbn [settings_pages icon_path]. split.
  - intros H. destruct (word_match (normalize raw)) eqn:Ew; cbn [negb] in H;
      [|congruence].
    destruct (lookup (normalize raw) SETTINGS_PAGES) as [p|] eqn:L; [|congruence].
    split; [apply word_match_normalize; exact Ew|].
    apply lookup_In in L. unfold catalog_ids; apply in_map_iff.
    exists (normalize raw, p); auto.
  - intros [Hs Hin]. rewrite (single_word_match _ Hs); cbn [negb].
    destruct (lookup_In_ids _ _ Hin) as [v Hv]; rewrite Hv; discriminate.
Qed.

(** Every item either handler returns carries exactly one action, and that
    action runs [gnome-control-center] with exactly one argument. *)
Theorem handlers_launch_control_center : forall icon raw,
  (exists items, TriggeredSearch (plugin_init icon) raw = Some items
     /\ Forall launches_control_center items)
  /\ (exists rs, ExactGlobalSearch (plugin_init icon) raw = Some rs
     /\ Forall (fun r => launches_control_center (item r)) rs).
Proof.
  intros icon raw; split.
  - eexists; split.
    + unfold TriggeredSearch, handleTriggerQuery; apply get_matching_catalog.
    + apply Forall_forall; intros x Hx.
      apply in_map_iff in Hx as [[pid info] [<- He]].
      apply filter_In in He as [He _].
      destruct (catalog_command_shape pid info He) as [arg Harg].
      do 2 eexists; split; [reflexivity|]; cbn; exact Harg.
  - unfold ExactGlobalSearch, handleGlobalQuery, mem, _create_item_for_page, plugin_init.
    cbn [settings_pages icon_path].
    destruct (word_match (normalize raw)); cbn [negb];
      [|eexists; split; [reflexivity|constructor]].
    destruct (lookup (normalize raw) SETTINGS_PAGES) as [info|] eqn:L;
      [|eexists; split; [reflexivity|constructor]].
    apply lookup_In in L.
    destruct (catalog_command_shape _ info L) as [arg Harg].
    eexists; split; [reflexivity|]. repeat constructor.
    do 2 eexists; split; [reflexivity|]; cbn; exact Harg.
Qed.

(** Both handlers ignore the case of the query. *)
Theorem handlers_ignore_case : forall self raw,
  TriggeredSearch self (lower raw) = TriggeredSearch self raw
  /\ ExactGlobalSearch self (lower raw) = ExactGlobalSearch self raw.
Proof.
  intros self raw; unfold TriggeredSearch, ExactGlobalSearch,
    handleTriggerQuery, handleGlobalQuery.
  rewrite normalize_lower; split; reflexivity.
Qed.

(** Both handlers ignore a whitespace character added before or after the
    query. *)
Theorem handlers_ignore_padding : forall self raw c,
  is_space c = true ->
  TriggeredSearch self (String c raw) = TriggeredSearch self raw
  /\ TriggeredSearch self (raw ++ String c "") = TriggeredSearch self raw
  /\ ExactGlobalSearch self (String c raw) = ExactGlobalSearch self raw
  /\ ExactGlobalSearch self (raw ++ String c "") = ExactGlobalSearch self raw.
Proof.
  intros self raw c Hc; destruct (normalize_pad raw c Hc) as [H1 H2].
  unfold TriggeredSearch, ExactGlobalSearch, handleTriggerQuery, handleGlobalQuery.
  rewrite H1, H2; repeat split.
Qed.

Lemma handlers_ignore_padding_witness :
  is_space "009"%char = true
  /\ TriggeredSearch (plugin_init "settings.svg") (String "009"%char "wifi")
     = TriggeredSearch (plugin_init "settings.svg") "wifi"
  /\ TriggeredSearch (plugin_init "settings.svg") ("wifi" ++ String "009"%char "")
     = TriggeredSearch (plugin_init "settings.svg") "wifi"
  /\ ExactGlobalSearch (plugin_init "settings.svg") (String "009"%char "wifi")
     = ExactGlobalSearch (plugin_init "settings.svg") "wifi"
  /\ ExactGlobalSearch (plugin_init "settings.svg") ("wifi" ++ String "009"%char "")
     = ExactGlobalSearch (plugin_init "settings.svg") "wifi".
Proof.
  split; [reflexivity|].
  apply (handlers_ignore_padding (plugin_init "settings.svg") "wifi" "009"%char).
  reflexivity.
Defined.
